(** * The error taxonomy of sarama ([errors.go])

    A shallow embedding of the package's error values: the sentinel
    catalogue, the broker error codes [KError] with their messages, the
    [sentinelError] wrapper with its [Error], [Is] and [Unwrap] methods, and
    the aggregation helper [multiError] together with the package variable
    [MultiErrorFormat].

    Three pieces of code called by [errors.go] live outside the package and
    are embedded from their published behaviour: the verbs [%s], [%v] and
    [%d] of [fmt.Sprintf], [errors.Is] of the Go standard library, and
    [Append], [ErrorOrNil], [Error], [Unwrap] and [ListFormatFunc] of
    [github.com/hashicorp/go-multierror]. *)

From Stdlib Require Import ZArith String Ascii List Bool Lia Permutation.
From Stdlib Require Import Decimal DecimalString DecimalPos DecimalZ.
Import ListNotations.

Open Scope Z_scope.
Open Scope string_scope.

(** ** Formatting primitives ([fmt], [strings]) *)

Definition nl  : string := String "010" EmptyString.
Definition tab : string := String "009" EmptyString.

(** [%d] applied to an integer: signed decimal, no padding. *)
Definition verb_d (z : Z) : string := NilZero.string_of_int (Z.to_int z).

(** Reading a decimal numeral back. *)
Definition read_d (s : string) : option Z :=
  option_map Z.of_int (NilZero.int_of_string s).

(** [%s] and [%v] applied to an [error] operand.  The operand is given as
    the text its [Error] method returns, or [None] for the nil interface,
    which [fmt] prints as a bad verb under [%s] and as [<nil>] under [%v]. *)
Definition verb_s (arg : option string) : string :=
  match arg with
  | Some s => s
  | None => "%!s(<nil>)"
  end.

Definition verb_v (arg : option string) : string :=
  match arg with
  | Some s => s
  | None => "<nil>"
  end.

(** [strings.Join]. *)
Fixpoint Join (elems : list string) (sep : string) : string :=
  match elems with
  | [] => ""
  | [s] => s
  | s :: rest => s ++ sep ++ Join rest sep
  end.

(** [strings.Contains], as a proposition. *)
Definition Contains (s substr : string) : Prop :=
  exists pre post, s = pre ++ substr ++ post.

(** ** Broker error codes *)

(** [type KError int16]. *)
Definition KError : Type := Z.

Definition int16 (z : Z) : Prop := -32768 <= z <= 32767.

Abbreviation ErrNoError                            := (0)%Z (only parsing).
Abbreviation ErrUnknown                            := (-1)%Z (only parsing).
Abbreviation ErrOffsetOutOfRange                   := (1)%Z (only parsing).
Abbreviation ErrInvalidMessage                     := (2)%Z (only parsing).
Abbreviation ErrUnknownTopicOrPartition            := (3)%Z (only parsing).
Abbreviation ErrInvalidMessageSize                 := (4)%Z (only parsing).
Abbreviation ErrLeaderNotAvailable                 := (5)%Z (only parsing).
Abbreviation ErrNotLeaderForPartition              := (6)%Z (only parsing).
Abbreviation ErrRequestTimedOut                    := (7)%Z (only parsing).
Abbreviation ErrBrokerNotAvailable                 := (8)%Z (only parsing).
Abbreviation ErrReplicaNotAvailable                := (9)%Z (only parsing).
Abbreviation ErrMessageSizeTooLarge                := (10)%Z (only parsing).
Abbreviation ErrStaleControllerEpochCode           := (11)%Z (only parsing).
Abbreviation ErrOffsetMetadataTooLarge             := (12)%Z (only parsing).
Abbreviation ErrNetworkException                   := (13)%Z (only parsing).
Abbreviation ErrOffsetsLoadInProgress              := (14)%Z (only parsing).
Abbreviation ErrConsumerCoordinatorNotAvailable    := (15)%Z (only parsing).
Abbreviation ErrNotCoordinatorForConsumer          := (16)%Z (only parsing).
Abbreviation ErrInvalidTopic                       := (17)%Z (only parsing).
Abbreviation ErrMessageSetSizeTooLarge             := (18)%Z (only parsing).
Abbreviation ErrNotEnoughReplicas                  := (19)%Z (only parsing).
Abbreviation ErrNotEnoughReplicasAfterAppend       := (20)%Z (only parsing).
Abbreviation ErrInvalidRequiredAcks                := (21)%Z (only parsing).
Abbreviation ErrIllegalGeneration                  := (22)%Z (only parsing).
Abbreviation ErrInconsistentGroupProtocol          := (23)%Z (only parsing).
Abbreviation ErrInvalidGroupId                     := (24)%Z (only parsing).
Abbreviation ErrUnknownMemberId                    := (25)%Z (only parsing).
Abbreviation ErrInvalidSessionTimeout              := (26)%Z (only parsing).
Abbreviation ErrRebalanceInProgress                := (27)%Z (only parsing).
Abbreviation ErrInvalidCommitOffsetSize            := (28)%Z (only parsing).
Abbreviation ErrTopicAuthorizationFailed           := (29)%Z (only parsing).
Abbreviation ErrGroupAuthorizationFailed           := (30)%Z (only parsing).
Abbreviation ErrClusterAuthorizationFailed         := (31)%Z (only parsing).
Abbreviation ErrInvalidTimestamp                   := (32)%Z (only parsing).
Abbreviation ErrUnsupportedSASLMechanism           := (33)%Z (only parsing).
Abbreviation ErrIllegalSASLState                   := (34)%Z (only parsing).
Abbreviation ErrUnsupportedVersion                 := (35)%Z (only parsing).
Abbreviation ErrTopicAlreadyExists                 := (36)%Z (only parsing).
Abbreviation ErrInvalidPartitions                  := (37)%Z (only parsing).
Abbreviation ErrInvalidReplicationFactor           := (38)%Z (only parsing).
Abbreviation ErrInvalidReplicaAssignment           := (39)%Z (only parsing).
Abbreviation ErrInvalidConfig                      := (40)%Z (only parsing).
Abbreviation ErrNotController                      := (41)%Z (only parsing).
Abbreviation ErrInvalidRequest                     := (42)%Z (only parsing).
Abbreviation ErrUnsupportedForMessageFormat        := (43)%Z (only parsing).
Abbreviation ErrPolicyViolation                    := (44)%Z (only parsing).
Abbreviation ErrOutOfOrderSequenceNumber           := (45)%Z (only parsing).
Abbreviation ErrDuplicateSequenceNumber            := (46)%Z (only parsing).
Abbreviation ErrInvalidProducerEpoch               := (47)%Z (only parsing).
Abbreviation ErrInvalidTxnState                    := (48)%Z (only parsing).
Abbreviation ErrInvalidProducerIDMapping           := (49)%Z (only parsing).
Abbreviation ErrInvalidTransactionTimeout          := (50)%Z (only parsing).
Abbreviation ErrConcurrentTransactions             := (51)%Z (only parsing).
Abbreviation ErrTransactionCoordinatorFenced       := (52)%Z (only parsing).
Abbreviation ErrTransactionalIDAuthorizationFailed := (53)%Z (only parsing).
Abbreviation ErrSecurityDisabled                   := (54)%Z (only parsing).
Abbreviation ErrOperationNotAttempted              := (55)%Z (only parsing).
Abbreviation ErrKafkaStorageError                  := (56)%Z (only parsing).
Abbreviation ErrLogDirNotFound                     := (57)%Z (only parsing).
Abbreviation ErrSASLAuthenticationFailed           := (58)%Z (only parsing).
Abbreviation ErrUnknownProducerID                  := (59)%Z (only parsing).
Abbreviation ErrReassignmentInProgress             := (60)%Z (only parsing).
Abbreviation ErrDelegationTokenAuthDisabled        := (61)%Z (only parsing).
Abbreviation ErrDelegationTokenNotFound            := (62)%Z (only parsing).
Abbreviation ErrDelegationTokenOwnerMismatch       := (63)%Z (only parsing).
Abbreviation ErrDelegationTokenRequestNotAllowed   := (64)%Z (only parsing).
Abbreviation ErrDelegationTokenAuthorizationFailed := (65)%Z (only parsing).
Abbreviation ErrDelegationTokenExpired             := (66)%Z (only parsing).
Abbreviation ErrInvalidPrincipalType               := (67)%Z (only parsing).
Abbreviation ErrNonEmptyGroup                      := (68)%Z (only parsing).
Abbreviation ErrGroupIDNotFound                    := (69)%Z (only parsing).
Abbreviation ErrFetchSessionIDNotFound             := (70)%Z (only parsing).
Abbreviation ErrInvalidFetchSessionEpoch           := (71)%Z (only parsing).
Abbreviation ErrListenerNotFound                   := (72)%Z (only parsing).
Abbreviation ErrTopicDeletionDisabled              := (73)%Z (only parsing).
Abbreviation ErrFencedLeaderEpoch                  := (74)%Z (only parsing).
Abbreviation ErrUnknownLeaderEpoch                 := (75)%Z (only parsing).
Abbreviation ErrUnsupportedCompressionType         := (76)%Z (only parsing).
Abbreviation ErrStaleBrokerEpoch                   := (77)%Z (only parsing).
Abbreviation ErrOffsetNotAvailable                 := (78)%Z (only parsing).
Abbreviation ErrMemberIdRequired                   := (79)%Z (only parsing).
Abbreviation ErrPreferredLeaderNotAvailable        := (80)%Z (only parsing).
Abbreviation ErrGroupMaxSizeReached                := (81)%Z (only parsing).
Abbreviation ErrFencedInstancedId                  := (82)%Z (only parsing).
Abbreviation ErrEligibleLeadersNotAvailable        := (83)%Z (only parsing).
Abbreviation ErrElectionNotNeeded                  := (84)%Z (only parsing).
Abbreviation ErrNoReassignmentInProgress           := (85)%Z (only parsing).
Abbreviation ErrGroupSubscribedToTopic             := (86)%Z (only parsing).
Abbreviation ErrInvalidRecord                      := (87)%Z (only parsing).
Abbreviation ErrUnstableOffsetCommit               := (88)%Z (only parsing).

(** The codes the [switch] of [KError.Error] has a case for: the constants
    above are the contiguous range from [ErrUnknown] to
    [ErrUnstableOffsetCommit]. *)
Definition known_code (err : KError) : bool :=
  ((ErrUnknown <=? err) && (err <=? ErrUnstableOffsetCommit))%Z.

Definition unknown_code_text (err : KError) : string :=
  "Unknown error, how did this happen? Error code = " ++ verb_d err.

Definition KError_Error (err : KError) : string :=
  match err with
  | ErrNoError =>
      "kafka server: Not an error, why are you printing me?"
  | ErrUnknown =>
      "kafka server: Unexpected (unknown?) server error"
  | ErrOffsetOutOfRange =>
      "kafka server: The requested offset is outside the range of offsets maintained by the server for the given topic/partition"
  | ErrInvalidMessage =>
      "kafka server: Message contents does not match its CRC"
  | ErrUnknownTopicOrPartition =>
      "kafka server: Request was for a topic or partition that does not exist on this broker"
  | ErrInvalidMessageSize =>
      "kafka server: The message has a negative size"
  | ErrLeaderNotAvailable =>
      "kafka server: In the middle of a leadership election, there is currently no leader for this partition and hence it is unavailable for writes"
  | ErrNotLeaderForPartition =>
      "kafka server: Tried to send a message to a replica that is not the leader for some partition. Your metadata is out of date"
  | ErrRequestTimedOut =>
      "kafka server: Request exceeded the user-specified time limit in the request"
  | ErrBrokerNotAvailable =>
      "kafka server: Broker not available. Not a client facing error, we should never receive this!!!"
  | ErrReplicaNotAvailable =>
      "kafka server: Replica information not available, one or more brokers are down"
  | ErrMessageSizeTooLarge =>
      "kafka server: Message was too large, server rejected it to avoid allocation error"
  | ErrStaleControllerEpochCode =>
      "kafka server: StaleControllerEpochCode (internal error code for broker-to-broker communication)"
  | ErrOffsetMetadataTooLarge =>
      "kafka server: Specified a string larger than the configured maximum for offset metadata"
  | ErrNetworkException =>
      "kafka server: The server disconnected before a response was received"
  | ErrOffsetsLoadInProgress =>
      "kafka server: The broker is still loading offsets after a leader change for that offset's topic partition"
  | ErrConsumerCoordinatorNotAvailable =>
      "kafka server: Offset's topic has not yet been created"
  | ErrNotCoordinatorForConsumer =>
      "kafka server: Request was for a consumer group that is not coordinated by this broker"
  | ErrInvalidTopic =>
      "kafka server: The request attempted to perform an operation on an invalid topic"
  | ErrMessageSetSizeTooLarge =>
      "kafka server: The request included message batch larger than the configured segment size on the server"
  | ErrNotEnoughReplicas =>
      "kafka server: Messages are rejected since there are fewer in-sync replicas than required"
  | ErrNotEnoughReplicasAfterAppend =>
      "kafka server: Messages are written to the log, but to fewer in-sync replicas than required"
  | ErrInvalidRequiredAcks =>
      "kafka server: The number of required acks is invalid (should be either -1, 0, or 1)"
  | ErrIllegalGeneration =>
      "kafka server: The provided generation id is not the current generation"
  | ErrInconsistentGroupProtocol =>
      "kafka server: The provider group protocol type is incompatible with the other members"
  | ErrInvalidGroupId =>
      "kafka server: The provided group id was empty"
  | ErrUnknownMemberId =>
      "kafka server: The provided member is not known in the current generation"
  | ErrInvalidSessionTimeout =>
      "kafka server: The provided session timeout is outside the allowed range"
  | ErrRebalanceInProgress =>
      "kafka server: A rebalance for the group is in progress. Please re-join the group"
  | ErrInvalidCommitOffsetSize =>
      "kafka server: The provided commit metadata was too large"
  | ErrTopicAuthorizationFailed =>
      "kafka server: The client is not authorized to access this topic"
  | ErrGroupAuthorizationFailed =>
      "kafka server: The client is not authorized to access this group"
  | ErrClusterAuthorizationFailed =>
      "kafka server: The client is not authorized to send this request type"
  | ErrInvalidTimestamp =>
      "kafka server: The timestamp of the message is out of acceptable range"
  | ErrUnsupportedSASLMechanism =>
      "kafka server: The broker does not support the requested SASL mechanism"
  | ErrIllegalSASLState =>
      "kafka server: Request is not valid given the current SASL state"
  | ErrUnsupportedVersion =>
      "kafka server: The version of API is not supported"
  | ErrTopicAlreadyExists =>
      "kafka server: Topic with this name already exists"
  | ErrInvalidPartitions =>
      "kafka server: Number of partitions is invalid"
  | ErrInvalidReplicationFactor =>
      "kafka server: Replication-factor is invalid"
  | ErrInvalidReplicaAssignment =>
      "kafka server: Replica assignment is invalid"
  | ErrInvalidConfig =>
      "kafka server: Configuration is invalid"
  | ErrNotController =>
      "kafka server: This is not the correct controller for this cluster"
  | ErrInvalidRequest =>
      "kafka server: This most likely occurs because of a request being malformed by the client library or the message was sent to an incompatible broker. See the broker logs for more details"
  | ErrUnsupportedForMessageFormat =>
      "kafka server: The requested operation is not supported by the message format version"
  | ErrPolicyViolation =>
      "kafka server: Request parameters do not satisfy the configured policy"
  | ErrOutOfOrderSequenceNumber =>
      "kafka server: The broker received an out of order sequence number"
  | ErrDuplicateSequenceNumber =>
      "kafka server: The broker received a duplicate sequence number"
  | ErrInvalidProducerEpoch =>
      "kafka server: Producer attempted an operation with an old epoch"
  | ErrInvalidTxnState =>
      "kafka server: The producer attempted a transactional operation in an invalid state"
  | ErrInvalidProducerIDMapping =>
      "kafka server: The producer attempted to use a producer id which is not currently assigned to its transactional id"
  | ErrInvalidTransactionTimeout =>
      "kafka server: The transaction timeout is larger than the maximum value allowed by the broker (as configured by max.transaction.timeout.ms)"
  | ErrConcurrentTransactions =>
      "kafka server: The producer attempted to update a transaction while another concurrent operation on the same transaction was ongoing"
  | ErrTransactionCoordinatorFenced =>
      "kafka server: The transaction coordinator sending a WriteTxnMarker is no longer the current coordinator for a given producer"
  | ErrTransactionalIDAuthorizationFailed =>
      "kafka server: Transactional ID authorization failed"
  | ErrSecurityDisabled =>
      "kafka server: Security features are disabled"
  | ErrOperationNotAttempted =>
      "kafka server: The broker did not attempt to execute this operation"
  | ErrKafkaStorageError =>
      "kafka server: Disk error when trying to access log file on the disk"
  | ErrLogDirNotFound =>
      "kafka server: The specified log directory is not found in the broker config"
  | ErrSASLAuthenticationFailed =>
      "kafka server: SASL Authentication failed"
  | ErrUnknownProducerID =>
      "kafka server: The broker could not locate the producer metadata associated with the Producer ID"
  | ErrReassignmentInProgress =>
      "kafka server: A partition reassignment is in progress"
  | ErrDelegationTokenAuthDisabled =>
      "kafka server: Delegation Token feature is not enabled"
  | ErrDelegationTokenNotFound =>
      "kafka server: Delegation Token is not found on server"
  | ErrDelegationTokenOwnerMismatch =>
      "kafka server: Specified Principal is not valid Owner/Renewer"
  | ErrDelegationTokenRequestNotAllowed =>
      "kafka server: Delegation Token requests are not allowed on PLAINTEXT/1-way SSL channels and on delegation token authenticated channels"
  | ErrDelegationTokenAuthorizationFailed =>
      "kafka server: Delegation Token authorization failed"
  | ErrDelegationTokenExpired =>
      "kafka server: Delegation Token is expired"
  | ErrInvalidPrincipalType =>
      "kafka server: Supplied principalType is not supported"
  | ErrNonEmptyGroup =>
      "kafka server: The group is not empty"
  | ErrGroupIDNotFound =>
      "kafka server: The group id does not exist"
  | ErrFetchSessionIDNotFound =>
      "kafka server: The fetch session ID was not found"
  | ErrInvalidFetchSessionEpoch =>
      "kafka server: The fetch session epoch is invalid"
  | ErrListenerNotFound =>
      "kafka server: There is no listener on the leader broker that matches the listener on which metadata request was processed"
  | ErrTopicDeletionDisabled =>
      "kafka server: Topic deletion is disabled"
  | ErrFencedLeaderEpoch =>
      "kafka server: The leader epoch in the request is older than the epoch on the broker"
  | ErrUnknownLeaderEpoch =>
      "kafka server: The leader epoch in the request is newer than the epoch on the broker"
  | ErrUnsupportedCompressionType =>
      "kafka server: The requesting client does not support the compression type of given partition"
  | ErrStaleBrokerEpoch =>
      "kafka server: Broker epoch has changed"
  | ErrOffsetNotAvailable =>
      "kafka server: The leader high watermark has not caught up from a recent leader election so the offsets cannot be guaranteed to be monotonically increasing"
  | ErrMemberIdRequired =>
      "kafka server: The group member needs to have a valid member id before actually entering a consumer group"
  | ErrPreferredLeaderNotAvailable =>
      "kafka server: The preferred leader was not available"
  | ErrGroupMaxSizeReached =>
      "kafka server: Consumer group The consumer group has reached its max size. already has the configured maximum number of members"
  | ErrFencedInstancedId =>
      "kafka server: The broker rejected this static consumer since another consumer with the same group.instance.id has registered with a different member.id"
  | ErrEligibleLeadersNotAvailable =>
      "kafka server: Eligible topic partition leaders are not available"
  | ErrElectionNotNeeded =>
      "kafka server: Leader election not needed for topic partition"
  | ErrNoReassignmentInProgress =>
      "kafka server: No partition reassignment is in progress"
  | ErrGroupSubscribedToTopic =>
      "kafka server: Deleting offsets of a topic is forbidden while the consumer group is actively subscribed to it"
  | ErrInvalidRecord =>
      "kafka server: This record has failed the validation on broker and hence will be rejected"
  | ErrUnstableOffsetCommit =>
      "kafka server: There are unstable offsets that need to be cleared"
  | _ => unknown_code_text err
  end.

(** The codes from [ErrUnknown] to [ErrUnstableOffsetCommit]. *)
Definition table_codes : list KError :=
  map (fun n => Z.of_nat n - 1) (seq 0 90).

(** Every message of the table starts with this prefix; the fallback
    message does not. *)
Definition has_table_prefix (s : string) : bool :=
  String.prefix "kafka server: " s.

(** ** Error values *)

(** [error] below nests [option] and [list]: with their predicate liftings
    registered, its induction principle gives a hypothesis for every nested
    error. *)
Scheme All for option.
Scheme All for list.

Section Model.

(** [F] names the functions of type [multierror.ErrorFormatFunc] that the
    hosting application may store in [MultiErrorFormat]; [app_format] below
    gives what each of them returns. *)
Variable F : Type.

(** A non-nil value of type [multierror.ErrorFormatFunc]: the function
    literal [errors.go] initialises [MultiErrorFormat] with, or a function of
    the application. *)
Inductive ErrorFormatFunc : Type :=
| CondensedFormat
| AppFormat (f : F).

(** A non-nil value of the interface [error], by dynamic type.  Pointer
    types carry the address they point to; an interface that may be nil is
    an [option error].  The member list of a [*multierror.Error] holds
    non-nil errors, which is what [multierror.Append] stores. *)
Inductive error : Type :=
| ErrorString (addr : nat) (s : string)
| KErrorVal (code : KError)
| PacketEncodingError (Info : string)
| PacketDecodingError (Info : string)
| ConfigurationError (msg : string)
| SentinelError (sentinel wrapped : option error)
| MultiError (addr : nat) (Errors : list error)
             (ErrorFormat : option ErrorFormatFunc).

Variable app_format : F -> list error -> string.

(** [type sentinelError struct { sentinel error; wrapped error }]. *)
Record sentinelError : Type := mkSentinelError {
  sentinel : option error;
  wrapped : option error
}.

Definition as_error (err : sentinelError) : error :=
  SentinelError (sentinel err) (wrapped err).

(** *** Rendering: the [Error] methods *)

Definition PacketEncodingError_Error (Info : string) : string :=
  "kafka: error encoding packet: " ++ Info.

Definition PacketDecodingError_Error (Info : string) : string :=
  "kafka: error decoding packet: " ++ Info.

Definition ConfigurationError_Error (err : string) : string :=
  "kafka: invalid configuration (" ++ err ++ ")".

(** The method bodies that call [Error] on other errors take the dynamic
    dispatch [Error_] as an argument; [Error] below closes the recursion. *)
Section Bodies.
Variable Error_ : error -> string.

(** The function literal [MultiErrorFormat] starts with. *)
Definition condensed_format (es : list error) : string :=
  match es with
  | [e] => Error_ e
  | _ =>
      let points := map (fun err => "* " ++ verb_s (Some (Error_ err))) es in
      verb_d (Z.of_nat (length es)) ++ " errors occurred:" ++ nl ++ tab
        ++ Join points (nl ++ tab) ++ nl
  end.

(** [multierror.ListFormatFunc], the formatter of the library. *)
Definition ListFormatFunc (es : list error) : string :=
  match es with
  | [e] =>
      "1 error occurred:" ++ nl ++ tab ++ "* " ++ verb_s (Some (Error_ e))
        ++ nl ++ nl
  | _ =>
      let points := map (fun err => "* " ++ verb_s (Some (Error_ err))) es in
      verb_d (Z.of_nat (length es)) ++ " errors occurred:" ++ nl ++ tab
        ++ Join points (nl ++ tab) ++ nl ++ nl
  end.

Definition call_format (fn : ErrorFormatFunc) (es : list error) : string :=
  match fn with
  | CondensedFormat => condensed_format es
  | AppFormat f => app_format f es
  end.

(** The [Error] method of [*multierror.Error]: a nil [ErrorFormat] field
    stands for [ListFormatFunc]. *)
Definition multierror_Error_body (es : list error)
    (ErrorFormat : option ErrorFormatFunc) : string :=
  match ErrorFormat with
  | Some fn => call_format fn es
  | None => ListFormatFunc es
  end.

Definition sentinelError_Error_body (sentinel wrapped : option error)
    : string :=
  match wrapped with
  | Some w =>
      verb_s (option_map Error_ sentinel) ++ ": " ++ verb_v (Some (Error_ w))
  | None => verb_s (option_map Error_ sentinel)
  end.

End Bodies.

Fixpoint Error (e : error) : string :=
  match e with
  | ErrorString _ s => s
  | KErrorVal code => KError_Error code
  | PacketEncodingError Info => PacketEncodingError_Error Info
  | PacketDecodingError Info => PacketDecodingError_Error Info
  | ConfigurationError msg => ConfigurationError_Error msg
  | SentinelError s w => sentinelError_Error_body Error s w
  | MultiError _ es fmt => multierror_Error_body Error es fmt
  end.

Definition sentinelError_Error (err : sentinelError) : string :=
  Error (as_error err).

(** The text a formatting policy yields on a list of errors. *)
Definition format_text (policy : option ErrorFormatFunc) (es : list error)
    : string :=
  multierror_Error_body Error es policy.

(** *** Identity: [==] on interface values and [errors.Is] *)

(** [x == y] for two non-nil interface values: false when the dynamic
    types differ, the address for pointers, the value for codes and
    strings, and field by field for [sentinelError]. *)
Fixpoint go_eq (x y : error) : bool :=
  match x, y with
  | ErrorString a _, ErrorString b _ => Nat.eqb a b
  | KErrorVal c, KErrorVal d => Z.eqb c d
  | PacketEncodingError i, PacketEncodingError j => String.eqb i j
  | PacketDecodingError i, PacketDecodingError j => String.eqb i j
  | ConfigurationError m, ConfigurationError n => String.eqb m n
  | SentinelError s w, SentinelError s' w' =>
      match s, s' with
      | Some a, Some b => go_eq a b
      | None, None => true
      | _, _ => false
      end
      &&
      match w, w' with
      | Some a, Some b => go_eq a b
      | None, None => true
      | _, _ => false
      end
  | MultiError a _ _, MultiError b _ _ => Nat.eqb a b
  | _, _ => false
  end.

(** [==] on interface values that may be nil. *)
Definition iface_eq (x y : option error) : bool :=
  match x, y with
  | Some a, Some b => go_eq a b
  | None, None => true
  | _, _ => false
  end.

(** The loop of [errors.Is] for a non-nil [err] and a non-nil [target]:
    [err == target], then the [Is] method where [err] has one, then
    [Unwrap].  Every dynamic type of [error] is comparable.
    - [sentinelError] has [Is], which asks [errors.Is] about both fields,
      and [Unwrap], which is the field [wrapped];
    - [*multierror.Error] has no [Is]; its [Unwrap] returns the only member,
      or, for two members or more, a [chain] over a copy of the members
      whose [Is] asks [errors.Is] about its head and whose [Unwrap] is its
      tail, so that the loop asks about every member in turn. *)
Fixpoint errors_Is_loop (err target : error) : bool :=
  match err with
  | SentinelError s w =>
      go_eq err target
      || ((match s with Some s' => errors_Is_loop s' target | None => false end)
          || (match w with Some w' => errors_Is_loop w' target | None => false end))
      || (match w with Some w' => errors_Is_loop w' target | None => false end)
  | MultiError _ es _ =>
      go_eq err target || existsb (fun e => errors_Is_loop e target) es
  | _ => go_eq err target
  end.

(** [errors.Is]: with a nil [err] or a nil [target] it is [err == target]. *)
Definition errors_Is (err target : option error) : bool :=
  match err, target with
  | Some e, Some t => errors_Is_loop e t
  | _, _ => iface_eq err target
  end.

Definition sentinelError_Is (err : sentinelError) (target : option error)
    : bool :=
  errors_Is (sentinel err) target || errors_Is (wrapped err) target.

Definition sentinelError_Unwrap (err : sentinelError) : option error :=
  wrapped err.

(** *** Aggregation *)

(** The loop of [multierror.Append]: a nil entry is skipped, the members of
    an entry that is a [*multierror.Error] are appended in its place, any
    other entry is appended. *)
Fixpoint Append_loop (Errors : list error) (errs : list (option error))
    : list error :=
  match errs with
  | [] => Errors
  | None :: rest => Append_loop Errors rest
  | Some (MultiError _ es _) :: rest => Append_loop (Errors ++ es)%list rest
  | Some e :: rest => Append_loop (Errors ++ [e])%list rest
  end.

(** [multierror.Append(nil, errs...)]: a new [Error] at address [addr] with
    a nil [ErrorFormat]. *)
Definition Append_nil (addr : nat) (errs : list (option error)) : error :=
  MultiError addr (Append_loop [] errs) None.

(** [ErrorOrNil]. *)
Definition ErrorOrNil (e : error) : option error :=
  match e with
  | MultiError _ [] _ => None
  | _ => Some e
  end.

(** The state of the process that [errors.go] reads and writes: the package
    variable [MultiErrorFormat] (nil is [None]) and the next free address
    for a [*multierror.Error]. *)
Record state : Type := mkState {
  MultiErrorFormat : option ErrorFormatFunc;
  next_addr : nat
}.

Definition M (A : Type) : Type := state -> A * state.

Definition ret {A : Type} (a : A) : M A := fun st => (a, st).

Definition bind {A B : Type} (m : M A) (k : A -> M B) : M B :=
  fun st => let (a, st') := m st in k a st'.

(** Allocation of a [multierror.Error]. *)
Definition new_Error : M nat :=
  fun st => (next_addr st,
             mkState (MultiErrorFormat st) (S (next_addr st))).

Definition get_MultiErrorFormat : M (option ErrorFormatFunc) :=
  fun st => (MultiErrorFormat st, st).

(** The assignment [MultiErrorFormat = fn]. *)
Definition set_MultiErrorFormat (fn : option ErrorFormatFunc) : M unit :=
  fun st => (tt, mkState fn (next_addr st)).

Definition set_ErrorFormat (merr : error) (fn : option ErrorFormatFunc)
    : error :=
  match merr with
  | MultiError a es _ => MultiError a es fn
  | _ => merr
  end.

Definition multiError (wrapped : list (option error)) : M (option error) :=
  bind new_Error (fun addr =>
  let merr := Append_nil addr wrapped in
  bind get_MultiErrorFormat (fun fn =>
  let merr :=
    match fn with
    | Some _ => set_ErrorFormat merr fn
    | None => merr
    end in
  ret (ErrorOrNil merr))).

Definition Wrap (sentinel : option error) (wrapped : list (option error))
    : M sentinelError :=
  bind (multiError wrapped) (fun w => ret (mkSentinelError sentinel w)).

(** Rendering reads no package variable: a call of [Error] in a state. *)
Definition call_Error (e : option error) : M (option string) :=
  ret (option_map Error e).

(** *** The sentinel catalogue

    Each [errors.New] allocates one [errorString]; the catalogue is
    allocated once, at package initialisation, at the addresses 1 to 16. *)

Definition ErrOutOfBrokers : error :=
  ErrorString 1 "kafka: client has run out of available brokers to talk to".
Definition ErrBrokerNotFound : error :=
  ErrorString 2 "kafka: broker for ID is not found".
Definition ErrClosedClient : error :=
  ErrorString 3 "kafka: tried to use a client that was closed".
Definition ErrIncompleteResponse : error :=
  ErrorString 4 "kafka: response did not contain all the expected topic/partition blocks".
Definition ErrInvalidPartition : error :=
  ErrorString 5 "kafka: partitioner returned an invalid partition index".
Definition ErrAlreadyConnected : error :=
  ErrorString 6 "kafka: broker connection already initiated".
Definition ErrNotConnected : error :=
  ErrorString 7 "kafka: broker not connected".
Definition ErrInsufficientData : error :=
  ErrorString 8 "kafka: insufficient data to decode packet, more bytes expected".
Definition ErrShuttingDown : error :=
  ErrorString 9 "kafka: message received by producer in process of shutting down".
Definition ErrMessageTooLarge : error :=
  ErrorString 10 "kafka: message is larger than Consumer.Fetch.Max".
Definition ErrConsumerOffsetNotAdvanced : error :=
  ErrorString 11 "kafka: consumer offset was not advanced after a RecordBatch".
Definition ErrControllerNotAvailable : error :=
  ErrorString 12 "kafka: controller is not available".
Definition ErrNoTopicsToUpdateMetadata : error :=
  ErrorString 13 "kafka: no specific topics to update metadata".
Definition ErrUnknownScramMechanism : error :=
  ErrorString 14 "kafka: unknown SCRAM mechanism provided".
Definition ErrReassignPartitions : error :=
  ErrorString 15 "failed to reassign partitions for topic".
Definition ErrDeleteRecords : error :=
  ErrorString 16 "kafka server: failed to delete records".

(** The state after package initialisation. *)
Definition init_state : state := mkState (Some CondensedFormat) 0.

(** *** Notions the properties are stated with *)

(** The dynamic type of [e] is [*multierror.Error]. *)
Definition is_multierror (e : error) : bool :=
  match e with
  | MultiError _ _ _ => true
  | _ => false
  end.

(** The dynamic type of [e] has neither [Is] nor [Unwrap]. *)
Definition is_plain (e : error) : bool :=
  match e with
  | SentinelError _ _ | MultiError _ _ _ => false
  | _ => true
  end.

(** What one entry of an argument list contributes to an aggregate. *)
Definition contribution (e : option error) : list error :=
  match e with
  | None => []
  | Some (MultiError _ es _) => es
  | Some e' => [e']
  end.

(** The entries of an argument list that are not nil. *)
Definition drop_nil (errs : list (option error)) : list error :=
  flat_map (fun e => match e with Some e' => [e'] | None => [] end) errs.

(** The errors reached from [e] by unwrapping: [e], what the [Unwrap] of a
    [sentinelError] returns (its cause, never its sentinel), the members an
    aggregate hands out through its [Unwrap], and so on from each. *)
Fixpoint unwrap_chain (e : error) : list error :=
  e ::
  match e with
  | SentinelError _ (Some w) => unwrap_chain w
  | MultiError _ es _ => flat_map unwrap_chain es
  | _ => []
  end.

(** The errors reached from [e] when a [sentinelError] also gives access to
    its sentinel. *)
Fixpoint error_tree (e : error) : list error :=
  e ::
  match e with
  | SentinelError s w =>
      (match s with Some s' => error_tree s' | None => [] end)
        ++ (match w with Some w' => error_tree w' | None => [] end)
  | MultiError _ es _ => flat_map error_tree es
  | _ => []
  end.

Definition opt_tree (e : option error) : list error :=
  match e with
  | Some e' => error_tree e'
  | None => []
  end.

Definition opt_chain (e : option error) : list error :=
  match e with
  | Some e' => unwrap_chain e'
  | None => []
  end.

(** The three-item list the condensed format prints. *)
Definition three_errors_text (a b c : error) : string :=
  "3 errors occurred:" ++ nl ++ tab ++ "* " ++ Error a
    ++ nl ++ tab ++ "* " ++ Error b
    ++ nl ++ tab ++ "* " ++ Error c ++ nl.

(** The bulleted list the condensed format prints for two errors or more. *)
Definition bulleted_text (es : list error) : string :=
  verb_d (Z.of_nat (length es)) ++ " errors occurred:" ++ nl ++ tab
    ++ Join (map (fun e => "* " ++ Error e) es) (nl ++ tab) ++ nl.

(** *** Programs the properties are about *)

(** An aggregate is built while the policy is [P1]; the policy is then set
    to [P2]; the aggregate is rendered. *)
Definition render_after_reassign (P1 P2 : option ErrorFormatFunc)
    (errs : list (option error)) : M (option string) :=
  bind (set_MultiErrorFormat P1) (fun _ =>
  bind (multiError errs) (fun agg =>
  bind (set_MultiErrorFormat P2) (fun _ =>
  call_Error agg))).

(** The aggregate of an aggregate and a further error. *)
Definition aggregate_again (a b c : option error) : M (option error) :=
  bind (multiError [a; b]) (fun inner => multiError [inner; c]).

End Model.

Arguments CondensedFormat {F}.
Arguments AppFormat {F} f.
Arguments ErrorString {F} addr s.
Arguments KErrorVal {F} code.
Arguments PacketEncodingError {F} Info.
Arguments PacketDecodingError {F} Info.
Arguments ConfigurationError {F} msg.
Arguments SentinelError {F} sentinel wrapped.
Arguments MultiError {F} addr Errors ErrorFormat.
Arguments mkSentinelError {F} sentinel wrapped.
Arguments sentinel {F} s.
Arguments wrapped {F} s.
Arguments as_error {F} err.
Arguments mkState {F} MultiErrorFormat next_addr.
Arguments MultiErrorFormat {F} s.
Arguments next_addr {F} s.
Arguments init_state {F}.
Arguments go_eq {F} x y.
Arguments iface_eq {F} x y.
Arguments errors_Is_loop {F} err target.
Arguments errors_Is {F} err target.
Arguments sentinelError_Is {F} err target.
Arguments sentinelError_Unwrap {F} err.
Arguments Append_loop {F} Errors errs.
Arguments Append_nil {F} addr errs.
Arguments ErrorOrNil {F} e.
Arguments multiError {F} wrapped _.
Arguments Wrap {F} sentinel wrapped _.
Arguments set_MultiErrorFormat {F} fn _.
Arguments is_multierror {F} e.
Arguments is_plain {F} e.
Arguments contribution {F} e.
Arguments drop_nil {F} errs.
Arguments unwrap_chain {F} e.
Arguments error_tree {F} e.
Arguments opt_tree {F} e.
Arguments opt_chain {F} e.
Arguments Error {F} app_format e.
Arguments sentinelError_Error {F} app_format err.
Arguments format_text {F} app_format policy es.
Arguments condensed_format {F} Error_ es.
Arguments ListFormatFunc {F} Error_ es.
Arguments three_errors_text {F} app_format a b c.
Arguments bulleted_text {F} app_format es.
Arguments call_Error {F} app_format e _.
Arguments render_after_reassign {F} app_format P1 P2 errs _.
Arguments aggregate_again {F} a b c _.
Arguments ErrOutOfBrokers {F}.
Arguments ErrBrokerNotFound {F}.
Arguments ErrClosedClient {F}.
Arguments ErrIncompleteResponse {F}.
Arguments ErrInvalidPartition {F}.
Arguments ErrAlreadyConnected {F}.
Arguments ErrNotConnected {F}.
Arguments ErrInsufficientData {F}.
Arguments ErrShuttingDown {F}.
Arguments ErrMessageTooLarge {F}.
Arguments ErrConsumerOffsetNotAdvanced {F}.
Arguments ErrControllerNotAvailable {F}.
Arguments ErrNoTopicsToUpdateMetadata {F}.
Arguments ErrUnknownScramMechanism {F}.
Arguments ErrReassignPartitions {F}.
Arguments ErrDeleteRecords {F}.

(** *** A hosting application

    An application with one formatter of its own, which prints a fixed
    text, and the values its tests build. *)

Definition demo_format : unit -> list (error unit) -> string :=
  fun _ _ => "custom".

(** The aggregate [multiError] returns for two sentinels in the initial
    state, and the state it leaves. *)
Definition two_sentinels : error unit :=
  MultiError 0 [ErrOutOfBrokers; ErrClosedClient] (Some CondensedFormat).

Definition state_after_one : state unit :=
  mkState (Some CondensedFormat) 1.

(** A state in which the application has set [MultiErrorFormat] to nil. *)
Definition nil_format_state : state unit := mkState None 0.

(** [Wrap(ErrClosedClient)], a wrapped error with no cause. *)
Definition closed_client_wrap : error unit :=
  SentinelError (Some ErrClosedClient) None.

(** *** Further notions *)

(** The dynamic type of [e] is one of the three types that carry a free
    text: [PacketEncodingError], [PacketDecodingError],
    [ConfigurationError]. *)
Definition is_detail {F : Type} (e : error F) : bool :=
  match e with
  | PacketEncodingError _ | PacketDecodingError _ | ConfigurationError _ =>
      true
  | _ => false
  end.

(** The sentinel catalogue, in the order of its declarations. *)
Definition catalogue {F : Type} : list (error F) :=
  [ErrOutOfBrokers;
   ErrBrokerNotFound;
   ErrClosedClient;
   ErrIncompleteResponse;
   ErrInvalidPartition;
   ErrAlreadyConnected;
   ErrNotConnected;
   ErrInsufficientData;
   ErrShuttingDown;
   ErrMessageTooLarge;
   ErrConsumerOffsetNotAdvanced;
   ErrControllerNotAvailable;
   ErrNoTopicsToUpdateMetadata;
   ErrUnknownScramMechanism;
   ErrReassignPartitions;
   ErrDeleteRecords].

(** [e] is not a [*multierror.Error] allocated at address [n] or later. *)
Definition allocated_before {F : Type} (n : nat) (e : error F) : bool :=
  match e with
  | MultiError a _ _ => Nat.ltb a n
  | _ => true
  end.

(** No member of [e] is itself a [*multierror.Error]. *)
Definition is_flat {F : Type} (e : error F) : bool :=
  match e with
  | MultiError _ es _ => forallb (fun m => negb (is_multierror m)) es
  | _ => true
  end.

(** Two codes of the table with the same message are the same code. *)
Definition table_texts_differ : bool :=
  forallb
    (fun a =>
       forallb
         (fun b =>
            implb (String.eqb (KError_Error a) (KError_Error b))
              (Z.eqb a b))
         table_codes)
    table_codes.

(** No text of a sentinel of the catalogue is the text of a code of the
    table, and none starts like the fallback text of a code. *)
Definition catalogue_texts_apart {F : Type}
    (app_format : F -> list (error F) -> string) : bool :=
  forallb
    (fun a =>
       forallb
         (fun c => negb (String.eqb (Error app_format a) (KError_Error c)))
         table_codes
       && negb (String.prefix "Unknown error" (Error app_format a)))
    catalogue.

(** * Properties *)

(** ** The code table *)

Lemma append_nil_r (s : string) : s ++ "" = s.
Proof. induction s as [|a s IH]; simpl; [reflexivity | now rewrite IH]. Qed.

Lemma append_assoc (s t u : string) : (s ++ t) ++ u = s ++ t ++ u.
Proof. induction s as [|a s IH]; simpl; [reflexivity | now rewrite IH]. Qed.

(** Brings two texts built with [++] to the same shape. *)
Ltac norm_text := repeat (progress (simpl; rewrite ?append_assoc)).

Lemma Contains_suffix (pre s : string) : Contains (pre ++ s) s.
Proof.
  exists pre, "". now rewrite append_nil_r.
Qed.

Lemma unknown_code_fallback (err : KError) :
  known_code err = false -> KError_Error err = unknown_code_text err.
Proof.
  unfold known_code. intros H.
  destruct err as [|p|p]; [discriminate H| |].
  - do 7 (try destruct p as [p|p|]); try discriminate H; reflexivity.
  - destruct p; try discriminate H; reflexivity.
Qed.

Lemma known_code_in_table (err : KError) :
  known_code err = true -> In err table_codes.
Proof.
  unfold known_code, table_codes. intros H.
  apply andb_true_iff in H as [Hlo Hhi].
  apply Z.leb_le in Hlo, Hhi.
  apply in_map_iff. exists (Z.to_nat (err + 1)). split; [lia|].
  apply in_seq. lia.
Qed.

Lemma table_texts :
  forallb (fun c => has_table_prefix (KError_Error c)) table_codes = true.
Proof. vm_compute. reflexivity. Qed.

Lemma known_code_text (err : KError) :
  known_code err = true -> has_table_prefix (KError_Error err) = true.
Proof.
  intros H. apply known_code_in_table in H.
  pose proof table_texts as T. rewrite forallb_forall in T. now apply T.
Qed.

Lemma unknown_code_text_no_prefix (err : KError) :
  has_table_prefix (unknown_code_text err) = false.
Proof. reflexivity. Qed.

Lemma read_verb_d (z : Z) : read_d (verb_d z) = Some z.
Proof.
  unfold read_d, verb_d.
  rewrite NilZero.isi.
  - simpl. now rewrite DecimalZ.of_to.
  - destruct z; simpl; try discriminate.
    intros H. injection H as H. now apply Unsigned.to_uint_nonnil in H.
  - destruct z; simpl; try discriminate.
    intros H. injection H as H. now apply Unsigned.to_uint_nonnil in H.
Qed.

Lemma table_prefix_nonempty (s : string) :
  has_table_prefix s = true -> s <> "".
Proof. intros H ->. discriminate H. Qed.



(** C9. The code -1, [ErrUnknown], has a case of its own in the table: it
    renders as the fixed message for an unexpected server error, which is
    not the fallback message that embeds the number. *)
Theorem ErrUnknown_is_in_table :
  KError_Error ErrUnknown
    = "kafka server: Unexpected (unknown?) server error"
  /\ known_code ErrUnknown = true
  /\ KError_Error ErrUnknown <> unknown_code_text ErrUnknown
  /\ unknown_code_text ErrUnknown
     = "Unknown error, how did this happen? Error code = -1".
Proof.
  repeat split. discriminate.
Qed.

(** ** Aggregation and wrapping *)

Lemma existsb_flat_map {A B : Type} (f : B -> bool) (g : A -> list B)
    (l : list A) :
  existsb f (flat_map g l) = existsb (fun a => existsb f (g a)) l.
Proof.
  induction l as [|a l IH]; simpl; [reflexivity|].
  now rewrite existsb_app, IH.
Qed.

Section Facts.

Context {F : Type} (app_format : F -> list (error F) -> string).

Lemma Append_loop_contribution (acc : list (error F)) errs :
  Append_loop acc errs = (acc ++ flat_map contribution errs)%list.
Proof.
  revert acc. induction errs as [|e errs IH]; intros acc; simpl.
  - now rewrite app_nil_r.
  - destruct e as [e|]; [|apply IH].
    destruct e; rewrite IH; simpl; now rewrite <- app_assoc.
Qed.

Lemma multiError_run (errs : list (option (error F))) st :
  multiError errs st
  = (ErrorOrNil (MultiError (next_addr st) (flat_map contribution errs)
                   (MultiErrorFormat st)),
     mkState (MultiErrorFormat st) (S (next_addr st))).
Proof.
  unfold multiError, bind, new_Error, get_MultiErrorFormat, ret, Append_nil.
  simpl. rewrite Append_loop_contribution. simpl.
  destruct (MultiErrorFormat st); reflexivity.
Qed.

Lemma contribution_not_multierror (e : error F) :
  is_multierror e = false -> contribution (Some e) = [e].
Proof. destruct e; simpl; intros H; (reflexivity || discriminate H). Qed.

Lemma flat_map_contribution_plain (errs : list (option (error F))) :
  (forall e, In (Some e) errs -> is_multierror e = false) ->
  flat_map contribution errs = drop_nil errs.
Proof.
  intros H. induction errs as [|e errs IH]; [reflexivity|].
  unfold drop_nil in *. simpl. rewrite IH.
  - destruct e as [e|]; [|reflexivity].
    rewrite contribution_not_multierror; [reflexivity|].
    apply H. now left.
  - intros e' He'. apply H. now right.
Qed.

Lemma Error_MultiError a (es : list (error F)) fmt :
  Error app_format (MultiError a es fmt) = format_text app_format fmt es.
Proof. reflexivity. Qed.

Lemma go_eq_refl (e : error F) : go_eq e e = true.
Proof.
  induction e as [a s|c|i|i|m|s Hs w Hw|a es Hes f]; simpl.
  - apply Nat.eqb_refl.
  - apply Z.eqb_refl.
  - apply String.eqb_refl.
  - apply String.eqb_refl.
  - apply String.eqb_refl.
  - destruct Hs as [s Hs|]; destruct Hw as [w Hw|];
      rewrite ?Hs, ?Hw; reflexivity.
  - apply Nat.eqb_refl.
Qed.

Lemma errors_Is_loop_refl (e : error F) : errors_Is_loop e e = true.
Proof.
  destruct e; simpl; rewrite ?go_eq_refl; try reflexivity.
  all: simpl; try apply Nat.eqb_refl; try apply Z.eqb_refl;
    try apply String.eqb_refl.
  - pose proof (go_eq_refl (SentinelError sentinel0 wrapped0)) as R.
    simpl in R. now rewrite R.
  - now rewrite Nat.eqb_refl.
Qed.

Lemma errors_Is_loop_plain (e t : error F) :
  is_plain e = true -> errors_Is_loop e t = go_eq e t.
Proof. destruct e; simpl; intros H; (reflexivity || discriminate H). Qed.

(** [errors.Is] finds [t] from [e] exactly when [t] is [==] to a node of
    the tree of [e]. *)
Lemma errors_Is_loop_tree (e t : error F) :
  errors_Is_loop e t = existsb (fun x => go_eq x t) (error_tree e).
Proof.
  induction e as [a s|c|i|i|m|s Hs w Hw|a es Hes f];
    try (simpl; now rewrite orb_false_r).
  - cbn [errors_Is_loop error_tree existsb]. rewrite existsb_app.
    assert (Es : match s with Some s' => errors_Is_loop s' t | None => false end
                 = existsb (fun x => go_eq x t)
                     (match s with Some s' => error_tree s' | None => [] end))
      by (destruct Hs; [assumption|reflexivity]).
    assert (Ew : match w with Some w' => errors_Is_loop w' t | None => false end
                 = existsb (fun x => go_eq x t)
                     (match w with Some w' => error_tree w' | None => [] end))
      by (destruct Hw; [assumption|reflexivity]).
    rewrite Es, Ew.
    destruct (go_eq (SentinelError s w) t), (existsb _ _), (existsb _ _);
      reflexivity.
  - cbn [errors_Is_loop error_tree existsb]. f_equal.
    rewrite existsb_flat_map.
    induction Hes as [|e He es Hes IH]; [reflexivity|].
    simpl. now rewrite He, IH.
Qed.

Lemma unwrap_chain_in_tree (e x : error F) :
  In x (unwrap_chain e) -> In x (error_tree e).
Proof.
  induction e as [a s|c|i|i|m|s Hs w Hw|a es Hes f]; try (simpl; tauto).
  - cbn [unwrap_chain error_tree]. intros [E|H]; [now left|right].
    apply in_or_app. right.
    destruct Hw as [w Hw|]; [now apply Hw|destruct H].
  - cbn [unwrap_chain error_tree]. intros [E|H]; [now left|right].
    induction Hes as [|e He es Hes IH]; [destruct H|].
    simpl in *. apply in_app_or in H. apply in_or_app.
    destruct H as [H|H]; [left; now apply He | right; now apply IH].
Qed.

End Facts.

Section Claims.

Context {F : Type} (app_format : F -> list (error F) -> string).

Abbreviation Err := (Error app_format).

Lemma Wrap_run (s : option (error F)) errs st :
  Wrap s errs st
  = (mkSentinelError s
       (ErrorOrNil (MultiError (next_addr st) (flat_map contribution errs)
                      (MultiErrorFormat st))),
     mkState (MultiErrorFormat st) (S (next_addr st))).
Proof. unfold Wrap, bind, ret. now rewrite multiError_run. Qed.

Lemma render_after_reassign_run P1 P2 (errs : list (option (error F))) st :
  fst (render_after_reassign app_format P1 P2 errs st)
  = match flat_map contribution errs with
    | [] => None
    | es => Some (format_text app_format P1 es)
    end.
Proof.
  unfold render_after_reassign, bind, set_MultiErrorFormat, call_Error, ret.
  rewrite multiError_run. simpl.
  destruct (flat_map contribution errs); reflexivity.
Qed.

Lemma contribution_map_Some (es : list (error F)) :
  Forall (fun e => is_multierror e = false) es ->
  flat_map contribution (map Some es) = es.
Proof.
  induction 1 as [|e es He _ IH]; [reflexivity|].
  cbn [map flat_map]. rewrite IH, contribution_not_multierror by assumption.
  reflexivity.
Qed.

(** C1, amended.  The formatting policy is read when the aggregate is
    built, not when it is rendered: an aggregate built while the policy is
    [P1] and rendered after the policy has been set to [P2] has the text
    that [P1] yields on its members (with the library's list format when
    [P1] is nil), whatever [P2] is; the members are the given errors when
    none of them is itself an aggregate. *)
Theorem format_is_read_at_construction P1 P2 :
  (forall (errs : list (option (error F))) st,
     fst (render_after_reassign app_format P1 P2 errs st)
     = match flat_map contribution errs with
       | [] => None
       | es => Some (format_text app_format P1 es)
       end)
  /\ (forall (es : list (error F)) st,
        (2 <= length es)%nat ->
        Forall (fun e => is_multierror e = false) es ->
        fst (render_after_reassign app_format P1 P2 (map Some es) st)
        = Some (format_text app_format P1 es)).
Proof.
  split.
  - intros errs st. apply render_after_reassign_run.
  - intros es st Hlen Hplain.
    rewrite render_after_reassign_run, contribution_map_Some by assumption.
    destruct es; [simpl in Hlen; lia | reflexivity].
Qed.

(** C2, amended.  For a non-nil error [e] that is not itself an aggregate,
    the aggregate of [e] alone is a one-element container whose only member
    is [e]; it is not [e], but [errors.Is] finds [e] in it and, when the
    policy is the condensed format of the package, it renders as [e]. *)
Theorem aggregate_of_one_is_a_container (e : error F) st :
  is_multierror e = false ->
  fst (multiError [Some e] st)
    = Some (MultiError (next_addr st) [e] (MultiErrorFormat st))
  /\ fst (multiError [Some e] st) <> Some e
  /\ iface_eq (fst (multiError [Some e] st)) (Some e) = false
  /\ errors_Is (fst (multiError [Some e] st)) (Some e) = true
  /\ (MultiErrorFormat st = Some CondensedFormat ->
      option_map Err (fst (multiError [Some e] st)) = Some (Err e)).
Proof.
  intros He. rewrite multiError_run.
  cbn [flat_map]. rewrite contribution_not_multierror by assumption.
  cbn [app ErrorOrNil fst].
  repeat split.
  - intros E. injection E as E. rewrite <- E in He. discriminate He.
  - destruct e; simpl; try reflexivity. discriminate He.
  - simpl. rewrite errors_Is_loop_refl. now rewrite !orb_true_r.
  - intros ->. reflexivity.
Qed.

(** C3, amended.  For a sentinel [S] and a non-nil cause [c], neither of
    them an aggregate, the causal component stored by [Wrap(S, c)] is a
    one-element aggregate whose only member is [c]; [Unwrap] yields that
    aggregate, which is neither [c] nor [S], and [errors.Is] finds [c] in
    it.  With no cause, [Unwrap] yields nil. *)
Theorem Wrap_stores_an_aggregate (S c : error F) st :
  is_multierror S = false ->
  is_multierror c = false ->
  sentinelError_Unwrap (fst (Wrap (Some S) [Some c] st))
    = Some (MultiError (next_addr st) [c] (MultiErrorFormat st))
  /\ sentinelError_Unwrap (fst (Wrap (Some S) [Some c] st)) <> Some c
  /\ iface_eq (sentinelError_Unwrap (fst (Wrap (Some S) [Some c] st)))
       (Some S) = false
  /\ errors_Is (sentinelError_Unwrap (fst (Wrap (Some S) [Some c] st)))
       (Some c) = true
  /\ sentinelError_Unwrap (fst (Wrap (Some S) [] st)) = None.
Proof.
  intros HS Hc. rewrite !Wrap_run.
  cbn [flat_map]. rewrite contribution_not_multierror by assumption.
  cbn [app ErrorOrNil fst sentinelError_Unwrap wrapped].
  repeat split.
  - intros E. injection E as E. rewrite <- E in Hc. discriminate Hc.
  - destruct S; simpl; try reflexivity. discriminate HS.
  - simpl. rewrite errors_Is_loop_refl. now rewrite !orb_true_r.
Qed.

Lemma sentinelError_Is_tree (s w : option (error F)) (T : error F) :
  sentinelError_Is (mkSentinelError s w) (Some T)
  = existsb (fun x => go_eq x T) (opt_tree s ++ opt_tree w).
Proof.
  unfold sentinelError_Is. cbn [sentinel wrapped]. rewrite existsb_app.
  f_equal.
  - destruct s; [apply errors_Is_loop_tree | reflexivity].
  - destruct w; [apply errors_Is_loop_tree | reflexivity].
Qed.


(** C5, amended.  [Wrap(S)] renders as the text of [S].  When the policy
    in force at the call is the condensed format of the package and the
    non-nil cause [c] is not itself an aggregate, [Wrap(S, c)] renders as
    the text of [S], a colon and a space, and the text of [c].  When the
    aggregate of [c1] and [c2] is not nil, [Wrap(S, c1, c2)] renders as the
    text of [S], a colon and a space, and the text of that aggregate. *)
Theorem Wrap_text (S : error F) st :
  sentinelError_Error app_format (fst (Wrap (Some S) [] st)) = Err S
  /\ (forall c : error F,
        MultiErrorFormat st = Some CondensedFormat ->
        is_multierror c = false ->
        sentinelError_Error app_format (fst (Wrap (Some S) [Some c] st))
        = Err S ++ ": " ++ Err c)
  /\ (forall (c1 c2 agg : error F),
        fst (multiError [Some c1; Some c2] st) = Some agg ->
        sentinelError_Error app_format
          (fst (Wrap (Some S) [Some c1; Some c2] st))
        = Err S ++ ": " ++ Err agg).
Proof.
  split; [now rewrite Wrap_run|]. split.
  - intros c Hfmt Hc. rewrite Wrap_run. cbn [flat_map].
    rewrite contribution_not_multierror, Hfmt by assumption. reflexivity.
  - intros c1 c2 agg Hagg. rewrite multiError_run in Hagg.
    rewrite Wrap_run. cbn [fst] in *. rewrite Hagg. reflexivity.
Qed.

Lemma contribution_ErrorOrNil a (es : list (error F)) fmt :
  contribution (ErrorOrNil (MultiError a es fmt)) = es.
Proof. destruct es; reflexivity. Qed.

Lemma aggregate_again_run (a b c : option (error F)) st :
  fst (aggregate_again a b c st)
  = ErrorOrNil (MultiError (S (next_addr st))
                  (flat_map contribution [a; b; c]) (MultiErrorFormat st)).
Proof.
  unfold aggregate_again, bind. rewrite multiError_run, multiError_run.
  cbn [fst next_addr MultiErrorFormat flat_map].
  rewrite contribution_ErrorOrNil, !app_nil_r, <- app_assoc. reflexivity.
Qed.

Lemma drop_nil_contribution (errs : list (option (error F))) :
  flat_map contribution errs
  = flat_map contribution (map Some (drop_nil errs)).
Proof.
  unfold drop_nil. induction errs as [|e errs IH]; [reflexivity|].
  destruct e as [e|]; simpl; [|exact IH].
  now rewrite IH.
Qed.

Lemma drop_nil_all_nil (errs : list (option (error F))) :
  (forall e, In e errs -> e = None) -> drop_nil errs = [].
Proof.
  unfold drop_nil. induction errs as [|e errs IH]; intros H; [reflexivity|].
  simpl. rewrite (H e) by now left. apply IH.
  intros e' He'. apply H. now right.
Qed.

Lemma condensed_format_bulleted (es : list (error F)) :
  (2 <= length es)%nat ->
  format_text app_format (Some CondensedFormat) es
  = bulleted_text app_format es.
Proof.
  destruct es as [|a [|b es]]; simpl; intros H; try lia. reflexivity.
Qed.

(** C7, amended.  The aggregate of an aggregate and a further error has
    the members the aggregate of all the entries has: the members of an
    entry that is an aggregate take its place.  For non-nil [a], [b] and [c]
    none of which is itself an aggregate, the aggregate of the aggregate of
    [a] and [b], and [c], is one aggregate whose members are [a], [b] and
    [c], which the condensed format renders as a list of three errors. *)
Theorem aggregate_again_is_flat st :
  (forall a b c : option (error F),
     fst (aggregate_again a b c st)
     = ErrorOrNil (MultiError (S (next_addr st))
                     (flat_map contribution [a; b; c])
                     (MultiErrorFormat st)))
  /\ (forall a b c : error F,
        is_multierror a = false ->
        is_multierror b = false ->
        is_multierror c = false ->
        fst (aggregate_again (Some a) (Some b) (Some c) st)
          = Some (MultiError (S (next_addr st)) [a; b; c]
                    (MultiErrorFormat st))
        /\ (MultiErrorFormat st = Some CondensedFormat ->
            option_map Err
              (fst (aggregate_again (Some a) (Some b) (Some c) st))
            = Some (three_errors_text app_format a b c))).
Proof.
  split; [intros; apply aggregate_again_run|].
  intros a b c Ha Hb Hc. rewrite aggregate_again_run.
  cbn [flat_map]. rewrite !contribution_not_multierror by assumption.
  split; [reflexivity|]. intros ->. unfold three_errors_text.
  now norm_text.
Qed.

(** C8, amended.  The aggregate drops the nil entries; when none is left
    the result is nil.  When two or more non-nil entries are left and none
    of them is itself an aggregate, the members are these entries in input
    order, and the condensed format renders a header with their number
    followed by the text of each as a bullet, in input order.  An entry that
    is an aggregate contributes its members in its place. *)
Theorem aggregate_drops_nil_and_keeps_order
    (errs : list (option (error F))) st :
  fst (multiError errs st)
    = ErrorOrNil (MultiError (next_addr st) (flat_map contribution errs)
                    (MultiErrorFormat st))
  /\ fst (multiError errs st)
     = fst (multiError (map Some (drop_nil errs)) st)
  /\ ((forall e, In e errs -> e = None) -> fst (multiError errs st) = None)
  /\ ((forall e, In (Some e) errs -> is_multierror e = false) ->
      (2 <= length (drop_nil errs))%nat ->
      fst (multiError errs st)
        = Some (MultiError (next_addr st) (drop_nil errs)
                  (MultiErrorFormat st))
      /\ (MultiErrorFormat st = Some CondensedFormat ->
          option_map Err (fst (multiError errs st))
          = Some (bulleted_text app_format (drop_nil errs))))
  /\ (forall e1 e2 : error F,
        errs = [Some e1; Some e2] ->
        is_multierror e1 = false -> is_multierror e2 = false ->
        MultiErrorFormat st = Some CondensedFormat ->
        option_map Err (fst (multiError errs st))
        = Some ("2 errors occurred:" ++ nl ++ tab ++ "* " ++ Err e1
                  ++ nl ++ tab ++ "* " ++ Err e2 ++ nl)).
Proof.
  rewrite !multiError_run. cbn [fst].
  split; [reflexivity|]. split; [now rewrite <- drop_nil_contribution|].
  split; [|split].
  - intros H. rewrite drop_nil_contribution, (drop_nil_all_nil errs H).
    reflexivity.
  - intros Hplain Hlen.
    rewrite (flat_map_contribution_plain errs Hplain).
    destruct (drop_nil errs) as [|x l] eqn:E; [simpl in Hlen; lia|].
    split; [reflexivity|]. intros ->.
    cbn [ErrorOrNil option_map]. rewrite Error_MultiError.
    now rewrite condensed_format_bulleted.
  - intros e1 e2 -> H1 H2 ->. cbn [flat_map].
    rewrite !contribution_not_multierror by assumption.
    now norm_text.
Qed.

(** C10.  When [MultiErrorFormat] is nil as an aggregate is built, the
    [ErrorFormat] field of the aggregate is left nil, which stands for the
    list format of the library: the aggregate, and a wrapped error whose
    cause it is, render with [ListFormatFunc] and no nil function is
    called. *)
Theorem nil_policy_keeps_library_format
    (errs : list (option (error F))) st :
  MultiErrorFormat st = None ->
  fst (multiError errs st)
    = ErrorOrNil (MultiError (next_addr st) (flat_map contribution errs) None)
  /\ (forall agg,
        fst (multiError errs st) = Some agg ->
        Err agg = ListFormatFunc Err (flat_map contribution errs))
  /\ (forall s, wrapped (fst (Wrap s errs st)) = fst (multiError errs st))
  /\ (forall (S : error F) agg,
        fst (multiError errs st) = Some agg ->
        sentinelError_Error app_format (fst (Wrap (Some S) errs st))
        = Err S ++ ": " ++ ListFormatFunc Err (flat_map contribution errs)).
Proof.
  intros Hnil. rewrite multiError_run, Hnil. cbn [fst].
  split; [reflexivity|]. split; [|split].
  - intros agg H. destruct (flat_map contribution errs); [discriminate H|].
    injection H as <-. reflexivity.
  - intros s. now rewrite Wrap_run, Hnil.
  - intros S agg H. rewrite Wrap_run, Hnil. cbn [fst].
    destruct (flat_map contribution errs); [discriminate H|]. reflexivity.
Qed.

End Claims.

(** ** Instances on the sentinel catalogue *)

Lemma format_is_read_at_construction_witness :
  fst (render_after_reassign demo_format (Some CondensedFormat)
         (Some (AppFormat tt))
         (map Some [ErrOutOfBrokers; ErrClosedClient]) init_state)
  = Some (format_text demo_format (Some CondensedFormat)
            [ErrOutOfBrokers; ErrClosedClient]).
Proof.
  apply (proj2 (format_is_read_at_construction demo_format
                  (Some CondensedFormat) (Some (AppFormat tt)))).
  - simpl. lia.
  - repeat constructor.
Defined.

(** C1, as stated, fails: an aggregate of two sentinels built under the
    condensed format and rendered after the policy has been set to the
    formatter of the application does not have the text of that
    formatter. *)
Lemma reassigned_policy_is_not_used :
  fst (render_after_reassign demo_format (Some CondensedFormat)
         (Some (AppFormat tt))
         [Some ErrOutOfBrokers; Some ErrClosedClient] init_state)
  <> Some (format_text demo_format (Some (AppFormat tt))
             [ErrOutOfBrokers; ErrClosedClient]).
Proof. vm_compute. discriminate. Qed.

Lemma aggregate_of_one_witness :
  fst (multiError [Some (@ErrNotConnected unit)] init_state)
  = Some (MultiError 0 [ErrNotConnected] (Some CondensedFormat)).
Proof.
  exact (proj1 (aggregate_of_one_is_a_container demo_format
                  ErrNotConnected init_state eq_refl)).
Defined.

(** C2, as stated, fails: the aggregate of [ErrNotConnected] alone is not
    [ErrNotConnected]. *)
Lemma aggregate_of_one_is_not_the_error :
  fst (multiError [Some (@ErrNotConnected unit)] init_state)
  <> Some ErrNotConnected.
Proof. vm_compute. discriminate. Qed.

Lemma Wrap_stores_an_aggregate_witness :
  sentinelError_Unwrap
    (fst (Wrap (Some (@ErrOutOfBrokers unit)) [Some ErrNotConnected]
            init_state))
  = Some (MultiError 0 [ErrNotConnected] (Some CondensedFormat)).
Proof.
  exact (proj1 (Wrap_stores_an_aggregate ErrOutOfBrokers ErrNotConnected
                  init_state eq_refl eq_refl)).
Defined.

(** C3, as stated, fails: unwrapping [Wrap(ErrOutOfBrokers,
    ErrNotConnected)] does not yield [ErrNotConnected]. *)
Lemma Unwrap_of_Wrap_is_not_the_cause :
  sentinelError_Unwrap
    (fst (Wrap (Some (@ErrOutOfBrokers unit)) [Some ErrNotConnected]
            init_state))
  <> Some ErrNotConnected.
Proof. vm_compute. discriminate. Qed.



Lemma Wrap_text_witness :
  sentinelError_Error demo_format
    (fst (Wrap (Some ErrOutOfBrokers) [Some ErrNotConnected] init_state))
  = "kafka: client has run out of available brokers to talk to: kafka: broker not connected".
Proof.
  exact (proj1 (proj2 (Wrap_text demo_format ErrOutOfBrokers init_state))
           ErrNotConnected eq_refl eq_refl).
Defined.

(** C5, as stated, fails: when [MultiErrorFormat] is nil,
    [Wrap(ErrOutOfBrokers, ErrNotConnected)] does not render as the two
    texts around a colon and a space. *)
Lemma Wrap_text_depends_on_policy :
  sentinelError_Error demo_format
    (fst (Wrap (Some ErrOutOfBrokers) [Some ErrNotConnected]
            nil_format_state))
  <> Error demo_format ErrOutOfBrokers ++ ": "
       ++ Error demo_format ErrNotConnected.
Proof. vm_compute. discriminate. Qed.

Lemma aggregate_again_is_flat_witness :
  option_map (Error demo_format)
    (fst (aggregate_again (Some ErrOutOfBrokers) (Some ErrNotConnected)
            (Some (KErrorVal ErrTopicAuthorizationFailed)) init_state))
  = Some (three_errors_text demo_format ErrOutOfBrokers ErrNotConnected
            (KErrorVal ErrTopicAuthorizationFailed)).
Proof.
  exact (proj2 (proj2 (aggregate_again_is_flat demo_format init_state)
                  ErrOutOfBrokers ErrNotConnected
                  (KErrorVal ErrTopicAuthorizationFailed)
                  eq_refl eq_refl eq_refl) eq_refl).
Defined.

(** C7, as stated, fails: with [a] the aggregate of two sentinels, the
    aggregate of the aggregate of [a] and [b], and [c], has four members
    and does not render as a list of the three errors [a], [b], [c]. *)
Lemma aggregate_again_of_an_aggregate :
  fst (multiError [Some ErrOutOfBrokers; Some ErrClosedClient] init_state)
    = Some two_sentinels
  /\ fst (aggregate_again (Some two_sentinels) (Some ErrNotConnected)
            (Some ErrShuttingDown) state_after_one)
     = Some (MultiError 2
               [ErrOutOfBrokers; ErrClosedClient; ErrNotConnected;
                ErrShuttingDown]
               (Some CondensedFormat))
  /\ option_map (Error demo_format)
       (fst (aggregate_again (Some two_sentinels) (Some ErrNotConnected)
               (Some ErrShuttingDown) state_after_one))
     <> Some (three_errors_text demo_format two_sentinels ErrNotConnected
                ErrShuttingDown).
Proof. vm_compute. repeat split. discriminate. Qed.

Lemma aggregate_drops_nil_and_keeps_order_witness :
  option_map (Error demo_format)
    (fst (multiError [Some ErrOutOfBrokers; None; Some ErrNotConnected]
            init_state))
  = Some (bulleted_text demo_format [ErrOutOfBrokers; ErrNotConnected]).
Proof.
  refine (proj2 (proj1 (proj2 (proj2 (proj2
            (aggregate_drops_nil_and_keeps_order demo_format
               [Some ErrOutOfBrokers; None; Some ErrNotConnected]
               init_state)))) _ _) eq_refl).
  - intros e [E|[E|[E|[]]]]; try discriminate E; injection E as <-;
      reflexivity.
  - simpl. lia.
Defined.

(** C8, as stated, fails: of the two non-nil entries [two_sentinels] and
    [ErrNotConnected], the first is an aggregate; the text has three
    bullets and is not the two-item list of the texts of the entries. *)
Lemma aggregate_of_an_aggregate_entry :
  length (drop_nil [Some two_sentinels; Some ErrNotConnected]) = 2%nat
  /\ option_map (Error demo_format)
       (fst (multiError [Some two_sentinels; Some ErrNotConnected]
               state_after_one))
     = Some (bulleted_text demo_format
               [ErrOutOfBrokers; ErrClosedClient; ErrNotConnected])
  /\ option_map (Error demo_format)
       (fst (multiError [Some two_sentinels; Some ErrNotConnected]
               state_after_one))
     <> Some (bulleted_text demo_format
                (drop_nil [Some two_sentinels; Some ErrNotConnected])).
Proof. vm_compute. repeat split. discriminate. Qed.

Lemma nil_policy_keeps_library_format_witness :
  fst (multiError [Some ErrOutOfBrokers; Some ErrNotConnected]
         nil_format_state)
  = Some (MultiError 0 [ErrOutOfBrokers; ErrNotConnected] None).
Proof.
  exact (proj1 (nil_policy_keeps_library_format demo_format
                  [Some ErrOutOfBrokers; Some ErrNotConnected]
                  nil_format_state eq_refl)).
Defined.

(** * Further properties *)

(** ** Texts *)

Lemma append_inj_l (p s t : string) : p ++ s = p ++ t -> s = t.
Proof.
  induction p as [|a p IH]; simpl; intros H; [exact H|].
  injection H as H. now apply IH.
Qed.

Lemma length_append (s t : string) :
  String.length (s ++ t) = (String.length s + String.length t)%nat.
Proof. induction s as [|a s IH]; simpl; [reflexivity | now rewrite IH]. Qed.

Lemma append_inj_r (s t u : string) : s ++ u = t ++ u -> s = t.
Proof.
  revert t. induction s as [|a s IH]; intros [|b t] H; simpl in H.
  - reflexivity.
  - apply (f_equal String.length) in H. simpl in H.
    rewrite length_append in H. lia.
  - apply (f_equal String.length) in H. simpl in H.
    rewrite length_append in H. lia.
  - injection H as -> H. f_equal. now apply IH.
Qed.

Lemma Contains_refl (s : string) : Contains s s.
Proof. exists "", "". simpl. now rewrite append_nil_r. Qed.

Lemma Contains_app_r (p s x : string) : Contains s x -> Contains (p ++ s) x.
Proof.
  intros [pre [post ->]]. exists (p ++ pre), post. now rewrite append_assoc.
Qed.

Lemma Contains_app_l (s q x : string) : Contains s x -> Contains (s ++ q) x.
Proof.
  intros [pre [post ->]]. exists pre, (post ++ q).
  now rewrite !append_assoc.
Qed.

Lemma Join_Contains (elems : list string) (sep s : string) :
  In s elems -> Contains (Join elems sep) s.
Proof.
  induction elems as [|a rest IH]; intros H; [destruct H|].
  destruct rest as [|b rest].
  - destruct H as [->|[]]. apply Contains_refl.
  - change (Join (a :: b :: rest) sep) with (a ++ sep ++ Join (b :: rest) sep).
    destruct H as [->|H].
    + apply Contains_app_l, Contains_refl.
    + do 2 apply Contains_app_r. now apply IH.
Qed.

Lemma verb_d_inj (a b : Z) : verb_d a = verb_d b -> a = b.
Proof.
  intros H. apply (f_equal read_d) in H. rewrite !read_verb_d in H.
  now injection H.
Qed.

Lemma table_texts_differ_true : table_texts_differ = true.
Proof. vm_compute. reflexivity. Qed.

(** X1. The message determines the code: two codes, in the table or not,
    with the same text are equal. *)
Theorem KError_Error_injective (a b : KError) :
  KError_Error a = KError_Error b -> a = b.
Proof.
  intros H.
  destruct (known_code a) eqn:Ka, (known_code b) eqn:Kb.
  - pose proof table_texts_differ_true as T. unfold table_texts_differ in T.
    rewrite forallb_forall in T.
    specialize (T a (known_code_in_table a Ka)).
    rewrite forallb_forall in T.
    specialize (T b (known_code_in_table b Kb)).
    rewrite H, String.eqb_refl in T. simpl in T. now apply Z.eqb_eq.
  - apply known_code_text in Ka.
    rewrite H, (unknown_code_fallback b Kb) in Ka. discriminate Ka.
  - apply known_code_text in Kb.
    rewrite <- H, (unknown_code_fallback a Ka) in Kb. discriminate Kb.
  - rewrite (unknown_code_fallback a Ka), (unknown_code_fallback b Kb) in H.
    apply append_inj_l in H. now apply verb_d_inj.
Qed.

Lemma KError_Error_injective_witness : (9001 : KError) = 9001.
Proof.
  exact (KError_Error_injective 9001 9001 eq_refl).
Defined.

Section Texts.

Context {F : Type} (app_format : F -> list (error F) -> string).

Abbreviation Err := (Error app_format).

(** X2. The text of a detail-carrying error determines the error: two
    errors among [PacketEncodingError], [PacketDecodingError] and
    [ConfigurationError] with the same text have the same type and the
    same free text. *)
Theorem detail_text_injective (e1 e2 : error F) :
  is_detail e1 = true -> is_detail e2 = true ->
  Err e1 = Err e2 -> e1 = e2.
Proof.
  destruct e1 as [| |i|i|m| |]; intros H1; try discriminate H1;
    destruct e2 as [| |j|j|n| |]; intros H2; try discriminate H2;
    cbn [Error]; unfold PacketEncodingError_Error, PacketDecodingError_Error,
      ConfigurationError_Error; intros H;
    try (simpl in H; discriminate H).
  - f_equal. exact (append_inj_l _ _ _ H).
  - f_equal. exact (append_inj_l _ _ _ H).
  - f_equal. apply append_inj_l in H. exact (append_inj_r _ _ _ H).
Qed.

(** X3. The format [MultiErrorFormat] starts with is the list format of
    the library less its last line feed, except for a single error, which
    it prints alone where the library prints a one-item list. *)
Theorem condensed_format_vs_library (es : list (error F)) :
  (length es <> 1%nat ->
   ListFormatFunc Err es = condensed_format Err es ++ nl)
  /\ (forall e, es = [e] ->
        condensed_format Err es = Err e
        /\ ListFormatFunc Err es
           = "1 error occurred:" ++ nl ++ tab ++ "* " ++ Err e ++ nl ++ nl).
Proof.
  split.
  - destruct es as [|a [|b l]]; intros H.
    + reflexivity.
    + now contradiction H.
    + unfold ListFormatFunc, condensed_format.
      generalize (Join
        (map (fun err => "* " ++ verb_s (Some (Err err))) (a :: b :: l))
        (nl ++ tab)). intros j.
      generalize (verb_d (Z.of_nat (length (a :: b :: l)))). intros d.
      now rewrite !append_assoc.
  - intros e ->. split; reflexivity.
Qed.

(** X4. No member is lost in rendering: under the format of the package
    and under the list format of the library, the text of an aggregate
    contains the text of each of its members. *)
Theorem format_contains_members (es : list (error F)) (e : error F) :
  In e es ->
  Contains (format_text app_format (Some CondensedFormat) es) (Err e)
  /\ Contains (format_text app_format None es) (Err e).
Proof.
  intros Hin.
  assert (J : Contains
    (Join (map (fun err => "* " ++ verb_s (Some (Err err))) es) (nl ++ tab))
    (Err e)).
  { assert (C : Contains ("* " ++ verb_s (Some (Err e))) (Err e))
      by apply Contains_app_r, Contains_refl.
    destruct C as [pre [post C]].
    destruct (Join_Contains
      (map (fun err => "* " ++ verb_s (Some (Err err))) es) (nl ++ tab)
      ("* " ++ verb_s (Some (Err e)))) as [pre' [post' J]].
    { apply in_map_iff. exists e. now split. }
    exists (pre' ++ pre), (post ++ post').
    rewrite J, C. now rewrite !append_assoc. }
  unfold format_text, multierror_Error_body, call_format.
  split.
  - destruct es as [|a [|b l]]; [destruct Hin| |].
    + destruct Hin as [->|[]]. apply Contains_refl.
    + unfold condensed_format.
      do 4 apply Contains_app_r. now apply Contains_app_l.
  - destruct es as [|a [|b l]]; [destruct Hin| |].
    + destruct Hin as [->|[]]. unfold ListFormatFunc.
      do 4 apply Contains_app_r. apply Contains_app_l, Contains_refl.
    + unfold ListFormatFunc.
      do 4 apply Contains_app_r. now apply Contains_app_l.
Qed.

End Texts.

(** ** Wrapping, identity and aggregation *)

Section Composition.

Context {F : Type} (app_format : F -> list (error F) -> string).

Abbreviation Err := (Error app_format).

Lemma in_contribution (causes : list (option (error F))) (c m : error F) :
  In (Some c) causes -> In m (contribution (Some c)) ->
  In m (flat_map contribution causes).
Proof.
  intros Hc Hm. apply in_flat_map. exists (Some c). now split.
Qed.

Lemma errors_Is_ErrorOrNil a (es : list (error F)) fmt (T : error F) :
  existsb (fun e => errors_Is_loop e T) es = true ->
  errors_Is (ErrorOrNil (MultiError a es fmt)) (Some T) = true.
Proof.
  intros H. destruct es as [|x l]; [discriminate H|].
  cbn [ErrorOrNil errors_Is errors_Is_loop]. rewrite H. apply orb_true_r.
Qed.

(** X5. The text of [Wrap(sentinel, causes...)] for any policy: the text
    of the sentinel alone when no cause contributes a member, otherwise the
    text of the sentinel, a colon and a space, and the text the policy in
    force at the call yields on the members; a nil sentinel is printed as
    the bad-verb marker of [fmt]. *)
Theorem Wrap_text_any_policy (s : option (error F)) causes st :
  sentinelError_Error app_format (fst (Wrap s causes st))
  = match flat_map contribution causes with
    | [] => verb_s (option_map Err s)
    | es => verb_s (option_map Err s) ++ ": "
              ++ format_text app_format (MultiErrorFormat st) es
    end
  /\ verb_s (option_map Err (@None (error F))) = "%!s(<nil>)"
  /\ (forall S : error F, verb_s (option_map Err (Some S)) = Err S).
Proof.
  rewrite Wrap_run. cbn [fst].
  destruct (flat_map contribution causes); repeat split.
Qed.

(** X6. Nil causes do not count: [Wrap] with causes that are all nil is
    the wrapped error with no cause, and renders as the sentinel alone. *)
Theorem Wrap_nil_causes (S : error F) causes st :
  (forall e, In e causes -> e = None) ->
  fst (Wrap (Some S) causes st) = mkSentinelError (Some S) None
  /\ sentinelError_Error app_format (fst (Wrap (Some S) causes st)) = Err S
  /\ sentinelError_Unwrap (fst (Wrap (Some S) causes st)) = None.
Proof.
  intros H. rewrite Wrap_run, drop_nil_contribution, (drop_nil_all_nil _ H).
  repeat split.
Qed.

(** X7. A nil target: [Is(nil)] on [Wrap(S, causes...)] holds exactly when
    no cause contributes a member, that is, when the causal component is
    nil. *)
Theorem Is_nil_target (S : error F) causes st :
  sentinelError_Is (fst (Wrap (Some S) causes st)) None = true
  <-> flat_map contribution causes = [].
Proof.
  rewrite Wrap_run. cbn [fst]. unfold sentinelError_Is. cbn [sentinel wrapped].
  destruct (flat_map contribution causes); simpl; split; intros H;
    (reflexivity || discriminate H).
Qed.

(** X8. Wrapping does not hide a cause from the identity test: when
    [errors.Is] finds a target from one of the causes, [Is] on the wrapped
    error accepts the target, whatever the sentinel and the other causes.
    The one exception is a cause that is an aggregate and is [==] to the
    target itself: its members are kept, the aggregate is not. *)
Theorem Is_survives_wrapping
    (s : option (error F)) causes (c T : error F) st :
  In (Some c) causes ->
  errors_Is_loop c T = true ->
  (is_multierror c = true -> go_eq c T = false) ->
  sentinelError_Is (fst (Wrap s causes st)) (Some T) = true.
Proof.
  intros Hin His Hagg. rewrite Wrap_run. cbn [fst].
  unfold sentinelError_Is. cbn [sentinel wrapped].
  rewrite (errors_Is_ErrorOrNil _ _ _ T); [apply orb_true_r|].
  apply existsb_exists.
  destruct (is_multierror c) eqn:Hc.
  - destruct c as [| | | | | |a es f]; try discriminate Hc.
    cbn [errors_Is_loop] in His. rewrite (Hagg eq_refl) in His.
    apply existsb_exists in His as [m [Hm HmT]].
    exists m. split; [|exact HmT].
    now apply (in_contribution causes (MultiError a es f)).
  - exists c. split; [|exact His].
    apply (in_contribution causes c); [exact Hin|].
    rewrite contribution_not_multierror by exact Hc. now left.
Qed.

(** [errors.Is] applied to a wrapped error accepts the targets its
    [Is] method accepts and the targets [==] to the wrapped error itself;
    the step through [Unwrap] adds nothing. *)
Lemma errors_Is_on_sentinelError (w : sentinelError F) (T : error F) :
  errors_Is (Some (as_error w)) (Some T)
  = go_eq (as_error w) T || sentinelError_Is w (Some T).
Proof.
  destruct w as [s w]. unfold sentinelError_Is, as_error.
  cbn [sentinel wrapped errors_Is errors_Is_loop].
  destruct s, w; cbn [errors_Is iface_eq];
    repeat match goal with
           | |- context [errors_Is_loop ?a ?b] =>
               destruct (errors_Is_loop a b)
           | |- context [go_eq ?a ?b] => destruct (go_eq a b)
           end; reflexivity.
Qed.

(** X9. The identity test is not symmetric: [errors.Is] finds a sentinel
    of a type with neither [Is] nor [Unwrap] from the wrapped error built
    on it, and never finds the wrapped error from the sentinel. *)
Theorem Is_not_symmetric (S : error F) causes st :
  is_plain S = true ->
  errors_Is (Some (as_error (fst (Wrap (Some S) causes st)))) (Some S) = true
  /\ errors_Is (Some S) (Some (as_error (fst (Wrap (Some S) causes st))))
     = false.
Proof.
  intros HS. rewrite Wrap_run. cbn [fst]. split.
  - rewrite errors_Is_on_sentinelError. unfold sentinelError_Is.
    cbn [sentinel errors_Is]. rewrite errors_Is_loop_refl.
    now rewrite orb_true_r.
  - cbn [errors_Is as_error sentinel wrapped].
    rewrite errors_Is_loop_plain by exact HS.
    destruct S; (reflexivity || discriminate HS).
Qed.

(** X10. [==] between wrapped errors: two wrapped errors on the same
    sentinel with no cause left are [==], in whatever state they were
    built; with a cause left, a wrapped error is never [==] to the one the
    next call builds from the same arguments, since each call allocates
    its own aggregate. *)
Theorem Wrap_equality (S : error F) causes st :
  (flat_map contribution causes = [] ->
   forall causes' st',
     flat_map contribution causes' = [] ->
     go_eq (as_error (fst (Wrap (Some S) causes st)))
       (as_error (fst (Wrap (Some S) causes' st'))) = true)
  /\ (flat_map contribution causes <> [] ->
      go_eq (as_error (fst (Wrap (Some S) causes st)))
        (as_error (fst (Wrap (Some S) causes (snd (Wrap (Some S) causes st)))))
      = false).
Proof.
  split.
  - intros E causes' st' E'. rewrite !Wrap_run, E, E'.
    cbn [fst as_error sentinel wrapped ErrorOrNil go_eq].
    now rewrite go_eq_refl.
  - intros E. rewrite !Wrap_run.
    cbn [fst snd next_addr MultiErrorFormat].
    destruct (flat_map contribution causes) as [|x l]; [now contradiction E|].
    cbn [as_error sentinel wrapped ErrorOrNil go_eq].
    rewrite go_eq_refl. cbn [andb].
    apply Nat.eqb_neq. lia.
Qed.

(** X11. The aggregate [multiError] returns is new: it is not [==] to any
    error that is not an aggregate, nor to any aggregate allocated before
    the call; the call leaves [MultiErrorFormat] as it was and the new
    aggregate counts as allocated in the state it leaves. *)
Theorem multiError_is_fresh (errs : list (option (error F))) st :
  (forall e : error F,
     allocated_before (next_addr st) e = true ->
     iface_eq (fst (multiError errs st)) (Some e) = false)
  /\ MultiErrorFormat (snd (multiError errs st)) = MultiErrorFormat st
  /\ (forall agg,
        fst (multiError errs st) = Some agg ->
        allocated_before (next_addr (snd (multiError errs st))) agg = true).
Proof.
  rewrite multiError_run. cbn [fst snd MultiErrorFormat next_addr].
  split; [|split; [reflexivity|]].
  - intros e He.
    destruct (flat_map contribution errs); [reflexivity|].
    cbn [ErrorOrNil iface_eq].
    destruct e; try reflexivity. cbn [go_eq allocated_before] in *.
    apply Nat.ltb_lt in He. apply Nat.eqb_neq. lia.
  - intros agg H.
    destruct (flat_map contribution errs); [discriminate H|].
    injection H as <-. cbn [allocated_before]. apply Nat.ltb_lt. lia.
Qed.

(** X12. Aggregates stay flat: when no member of an entry is itself an
    aggregate, no member of the result is.  Flattening goes one level
    deep, which is deep enough for aggregates this function built. *)
Theorem multiError_keeps_flat (errs : list (option (error F))) st agg :
  (forall e, In (Some e) errs -> is_flat e = true) ->
  fst (multiError errs st) = Some agg ->
  is_flat agg = true.
Proof.
  intros Hflat H. rewrite multiError_run in H. cbn [fst] in H.
  assert (A : forallb (fun m : error F => negb (is_multierror m))
                (flat_map contribution errs) = true).
  { apply forallb_forall. intros m Hm.
    apply in_flat_map in Hm as [e [He Hm]].
    destruct e as [e|]; [|destruct Hm].
    specialize (Hflat e He).
    destruct e; cbn [contribution] in Hm;
      try (destruct Hm as [<-|[]]; reflexivity).
    cbn [is_flat] in Hflat. rewrite forallb_forall in Hflat.
    now apply Hflat. }
  destruct (flat_map contribution errs); [discriminate H|].
  injection H as <-. exact A.
Qed.

(** X13. Aggregation composes: the aggregate of the aggregate of [xs] and
    the aggregate of [ys] has the members, and so the text, of the
    aggregate of [xs] followed by [ys]; the formats the two inner
    aggregates were built with play no part.  In particular the aggregate
    of an aggregate alone has the members and the text of a rebuilt
    copy. *)
Theorem multiError_concat (xs ys : list (option (error F))) st1 st2 st :
  fst (multiError [fst (multiError xs st1); fst (multiError ys st2)] st)
    = fst (multiError (xs ++ ys) st)
  /\ fst (multiError [fst (multiError xs st1)] st) = fst (multiError xs st).
Proof.
  rewrite !multiError_run. cbn [fst flat_map].
  rewrite !contribution_ErrorOrNil, !app_nil_r, flat_map_app.
  split; reflexivity.
Qed.


End Composition.

(** ** The sentinel catalogue *)

Section Catalogue.

Context {F : Type} (app_format : F -> list (error F) -> string).

Abbreviation Err := (Error app_format).

Lemma catalogue_texts_apart_true : catalogue_texts_apart app_format = true.
Proof. vm_compute. reflexivity. Qed.

Lemma catalogue_is_plain (a : error F) :
  In a catalogue -> is_plain a = true.
Proof.
  unfold catalogue. intros H.
  repeat (destruct H as [<-|H]; [reflexivity|]). destruct H.
Qed.

(** X15. The catalogue has no duplicates: two of its sentinels with the
    same text are the same sentinel, [errors.Is] between two of them holds
    only for a sentinel and itself, and no sentinel has the text of a
    broker error code. *)
Theorem catalogue_is_distinct (a b : error F) :
  In a catalogue -> In b catalogue ->
  (Err a = Err b -> a = b)
  /\ (errors_Is (Some a) (Some b) = true <-> a = b)
  /\ (forall c : KError, Err a <> KError_Error c).
Proof.
  intros Ha Hb.
  assert (D : go_eq a b = true <-> a = b).
  { unfold catalogue in Ha, Hb.
    repeat (destruct Ha as [<-|Ha]; [|]); try destruct Ha;
      repeat (destruct Hb as [<-|Hb]; [|]); try destruct Hb;
      split; intros H; solve [reflexivity | discriminate H]. }
  split; [|split].
  - unfold catalogue in Ha, Hb.
    repeat (destruct Ha as [<-|Ha]; [|]); try destruct Ha;
      repeat (destruct Hb as [<-|Hb]; [|]); try destruct Hb;
      intros H; solve [reflexivity | discriminate H].
  - cbn [errors_Is].
    rewrite (errors_Is_loop_plain a b (catalogue_is_plain a Ha)). exact D.
  - intros c E.
    pose proof catalogue_texts_apart_true as T.
    unfold catalogue_texts_apart in T. rewrite forallb_forall in T.
    specialize (T a Ha). apply andb_true_iff in T as [T1 T2].
    destruct (known_code c) eqn:K.
    + rewrite forallb_forall in T1.
      specialize (T1 c (known_code_in_table c K)).
      rewrite E, String.eqb_refl in T1. discriminate T1.
    + rewrite E, (unknown_code_fallback c K) in T2. discriminate T2.
Qed.

End Catalogue.

(** ** Instances of the further properties *)

Lemma detail_text_injective_witness :
  PacketEncodingError (F:=unit) "int16 overflow"
  = PacketEncodingError "int16 overflow".
Proof.
  exact (detail_text_injective demo_format
           (PacketEncodingError "int16 overflow")
           (PacketEncodingError "int16 overflow") eq_refl eq_refl eq_refl).
Defined.

Lemma condensed_format_vs_library_witness :
  ListFormatFunc (Error demo_format) [ErrOutOfBrokers; ErrClosedClient]
  = condensed_format (Error demo_format) [ErrOutOfBrokers; ErrClosedClient]
      ++ nl.
Proof.
  apply (proj1 (condensed_format_vs_library demo_format
                  [ErrOutOfBrokers; ErrClosedClient])).
  simpl. discriminate.
Defined.

Lemma format_contains_members_witness :
  Contains
    (format_text demo_format (Some CondensedFormat)
       [ErrOutOfBrokers; ErrClosedClient])
    (Error demo_format ErrClosedClient).
Proof.
  apply (proj1 (format_contains_members demo_format
                  [ErrOutOfBrokers; ErrClosedClient] ErrClosedClient
                  (or_intror (or_introl eq_refl)))).
Defined.

Lemma Wrap_nil_causes_witness :
  fst (Wrap (Some (@ErrOutOfBrokers unit)) [None; None] init_state)
  = mkSentinelError (Some ErrOutOfBrokers) None.
Proof.
  apply (proj1 (Wrap_nil_causes demo_format ErrOutOfBrokers [None; None]
                  init_state
                  (fun e H =>
                     match H with
                     | or_introl E => eq_sym E
                     | or_intror (or_introl E) => eq_sym E
                     | or_intror (or_intror G) => False_ind _ G
                     end))).
Defined.

Lemma Is_survives_wrapping_witness :
  sentinelError_Is
    (fst (Wrap (Some ErrOutOfBrokers)
            [Some closed_client_wrap; Some ErrNotConnected] init_state))
    (Some ErrClosedClient) = true.
Proof.
  apply (Is_survives_wrapping (Some ErrOutOfBrokers)
           [Some closed_client_wrap; Some ErrNotConnected]
           closed_client_wrap ErrClosedClient init_state).
  - now left.
  - reflexivity.
  - intros H. discriminate H.
Defined.

Lemma Is_not_symmetric_witness :
  errors_Is (Some (@ErrOutOfBrokers unit))
    (Some (as_error (fst (Wrap (Some ErrOutOfBrokers)
                            [Some ErrNotConnected] init_state))))
  = false.
Proof.
  exact (proj2 (Is_not_symmetric ErrOutOfBrokers [Some ErrNotConnected]
                  init_state eq_refl)).
Defined.

Lemma Wrap_equality_witness :
  go_eq
    (as_error (fst (Wrap (Some (@ErrOutOfBrokers unit))
                      [Some ErrNotConnected] init_state)))
    (as_error (fst (Wrap (Some ErrOutOfBrokers) [Some ErrNotConnected]
                      (snd (Wrap (Some ErrOutOfBrokers)
                              [Some ErrNotConnected] init_state)))))
  = false.
Proof.
  apply (proj2 (Wrap_equality ErrOutOfBrokers [Some ErrNotConnected]
                  init_state)).
  simpl. discriminate.
Defined.

Lemma multiError_is_fresh_witness :
  iface_eq (fst (multiError [Some ErrNotConnected] state_after_one))
    (Some two_sentinels) = false.
Proof.
  exact (proj1 (multiError_is_fresh [Some ErrNotConnected] state_after_one)
           two_sentinels eq_refl).
Defined.

Lemma multiError_keeps_flat_witness :
  is_flat (MultiError (F:=unit) 1
             [ErrOutOfBrokers; ErrClosedClient; ErrNotConnected]
             (Some CondensedFormat)) = true.
Proof.
  apply (multiError_keeps_flat
           [Some two_sentinels; Some ErrNotConnected] state_after_one).
  - intros e [E|[E|[]]]; injection E as <-; reflexivity.
  - reflexivity.
Defined.


Lemma catalogue_is_distinct_witness :
  errors_Is (Some (@ErrOutOfBrokers unit)) (Some ErrClosedClient) = true
  <-> @ErrOutOfBrokers unit = ErrClosedClient.
Proof.
  apply (proj1 (proj2 (catalogue_is_distinct demo_format
                         ErrOutOfBrokers ErrClosedClient
                         (or_introl eq_refl)
                         (or_intror (or_intror (or_introl eq_refl)))))).
Defined.
